(** * practice_deep_learning: the update script and the Gluon notebook

    Two artifacts are embedded here.

    - [Shell]: [new_manual_update.sh], a bash script that captures the date
      and the working directory and then runs eight [cd $temp_path && git ...]
      lines.  The host (file system, clock, repository, the programs found on
      it) is a parameter; the shell's own behaviour (command substitution,
      word splitting, pathname expansion, [&&], the [cd] and [pwd] builtins)
      is written out.
    - [Notebook]: [linear-regression-gluon.ipynb], a notebook that calls
      MXNet/Gluon.  The library is a parameter; the notebook's own function
      [load_array], its literal settings and its loops are written out, and
      a run is the list of library calls it makes. *)

From Stdlib Require Import String Ascii List ZArith QArith Bool Arith Lia.
Import ListNotations.
Local Close Scope Q_scope.
Local Open Scope string_scope.
Local Open Scope list_scope.

(* ===================================================================== *)
(** * The shell script *)
(* ===================================================================== *)

Module Shell.

(** ** Text handling done by the shell *)

Definition newline : ascii := "010"%char.

Definition is_newline (c : ascii) : bool := Ascii.eqb c newline.

(** Default [IFS]: space, tab, newline. *)
Definition is_ifs (c : ascii) : bool :=
  Ascii.eqb c " "%char || Ascii.eqb c "009"%char || Ascii.eqb c newline.

(** Characters that make an unquoted field a pattern. *)
Definition is_glob (c : ascii) : bool :=
  Ascii.eqb c "*"%char || Ascii.eqb c "?"%char || Ascii.eqb c "["%char.

Fixpoint drop_newlines (l : list ascii) : list ascii :=
  match l with
  | c :: l' => if is_newline c then drop_newlines l' else l
  | [] => []
  end.

(** [$(...)] removes every trailing newline of the captured output. *)
Definition strip_newlines (s : string) : string :=
  string_of_list_ascii (rev (drop_newlines (rev (list_ascii_of_string s)))).

(** Word splitting: [cur] is the field being read, newest character first. *)
Fixpoint split_ifs (cur : list ascii) (l : list ascii) : list (list ascii) :=
  match l with
  | [] => [rev cur]
  | c :: l' =>
      if is_ifs c then rev cur :: split_ifs [] l' else split_ifs (c :: cur) l'
  end.

Definition nonempty (l : list ascii) : bool :=
  match l with [] => false | _ :: _ => true end.

(** The fields of an unquoted expansion; IFS white space never yields an
    empty field. *)
Definition fields (s : string) : list string :=
  map string_of_list_ascii
      (filter nonempty (split_ifs [] (list_ascii_of_string s))).

Definition has_glob (s : string) : bool :=
  existsb is_glob (list_ascii_of_string s).

(** ** The host *)

(** Everything outside the shell process: [H] is the host's state (file
    system, clock, repository).  A program that runs changes it. *)
Record OS (H : Type) : Type := mkOS {
  (** [chdir h c d]: the new working directory when [cd d], issued in
      directory [c], succeeds. *)
  chdir : H -> string -> string -> option string;
  (** [here h c]: on host [h] the directory [c] a shell works in can still
      be retrieved; it cannot once the directory has been removed. *)
  here : H -> string -> bool;
  (** [matches h c pat]: the sorted path names matching pattern [pat]. *)
  matches : H -> string -> string -> list string;
  (** [spawn h c argv]: the host after program [argv] ran in directory [c]. *)
  spawn : H -> string -> list string -> H;
  (** what that program wrote on its standard output *)
  stdout_of : H -> string -> list string -> string;
  (** [HOME] in the environment the script was started with *)
  home : option string
}.

Arguments chdir {H}.
Arguments here {H}.
Arguments matches {H}.
Arguments spawn {H}.
Arguments stdout_of {H}.
Arguments home {H}.

(** Exit status of a program run on host [h] in directory [c]. *)
Definition exits (H : Type) : Type := H -> string -> list string -> Z.

(** ** The shell's state and the record of a run *)

Inductive kind : Type := Builtin | External.

Record event : Type := Ev {
  ev_kind : kind;
  ev_cwd : string;          (* directory the command ran in *)
  ev_argv : list string;    (* argv, command name first *)
  ev_exit : Z
}.

Record state (H : Type) : Type := St {
  host : H;
  cwd : string;
  vars : list (string * string);  (* shell variables, newest binding first *)
  status : Z;                     (* [$?] *)
  log : list event                (* commands run, oldest first *)
}.

Arguments St {H}.
Arguments host {H}.
Arguments cwd {H}.
Arguments vars {H}.
Arguments status {H}.
Arguments log {H}.

Fixpoint lookup (x : string) (vs : list (string * string)) : option string :=
  match vs with
  | [] => None
  | (y, v) :: vs' => if String.eqb x y then Some v else lookup x vs'
  end.

(** An unset variable expands to the empty string. *)
Definition value (x : string) (vs : list (string * string)) : string :=
  match lookup x vs with Some v => v | None => "" end.

Section Script.

Context {H : Type}.
Variable os : OS H.
Variable ex : exits H.

(** A command maps the state to the new state and what it printed. *)
Definition cmd : Type := state H -> state H * string.

(** A word of a command line expands, in a state, to zero or more
    arguments. *)
Definition word : Type := state H -> list string.

(** Pathname expansion of one field: a pattern with matches is replaced by
    them, anything else is kept. *)
Definition pathname (h : H) (c : string) (f : string) : list string :=
  if has_glob f then
    match matches os h c f with
    | [] => [f]
    | ms => ms
    end
  else [f].

(** What unquoted [$x] with value [v] becomes. *)
Definition operands (h : H) (c : string) (v : string) : list string :=
  flat_map (pathname h c) (fields v).

(** A literal word. *)
Definition lit (a : string) : word := fun _ => [a].

(** Unquoted [$x]. *)
Definition var (x : string) : word :=
  fun s => operands (host s) (cwd s) (value x (vars s)).

Inductive piece : Type :=
  | txt (t : string)
  | ref (x : string).

(** A double-quoted word: one argument, no splitting, no patterns. *)
Definition dq (ps : list piece) : word :=
  fun s =>
    [String.concat ""
       (map (fun p => match p with
                      | txt t => t
                      | ref x => value x (vars s)
                      end) ps)].

Definition argv_of (ws : list word) (s : state H) : list string :=
  flat_map (fun w => w s) ws.

(** An external program, found by name or path. *)
Definition exec (ws : list word) : cmd :=
  fun s =>
    let argv := argv_of ws s in
    let e := ex (host s) (cwd s) argv in
    (St (spawn os (host s) (cwd s) argv) (cwd s) (vars s) e
        (log s ++ [Ev External (cwd s) argv e]),
     stdout_of os (host s) (cwd s) argv).

(** The builtin [pwd] prints the shell's working directory; where that
    directory cannot be retrieved it prints nothing (the message goes to
    standard error) and returns 1. *)
Definition pwd : cmd :=
  fun s =>
    if here os (host s) (cwd s) then
      (St (host s) (cwd s) (vars s) 0
          (log s ++ [Ev Builtin (cwd s) ["pwd"] 0]),
       (cwd s ++ String newline "")%string)
    else
      (St (host s) (cwd s) (vars s) 1
          (log s ++ [Ev Builtin (cwd s) ["pwd"] 1]), "").

(** Where [cd args] leads: no operand means [$HOME], one operand is the
    directory, more are an error. *)
Definition cd_target (h : H) (c : string) (args : list string) : option string :=
  match args with
  | [] => match home os with
          | Some d => chdir os h c d
          | None => None
          end
  | [d] => chdir os h c d
  | _ :: _ :: _ => None
  end.

(** The builtin [cd]. *)
Definition cd (ws : list word) : cmd :=
  fun s =>
    let args := argv_of ws s in
    match cd_target (host s) (cwd s) args with
    | Some c' =>
        (St (host s) c' (vars s) 0
            (log s ++ [Ev Builtin (cwd s) ("cd" :: args) 0]), "")
    | None =>
        (St (host s) (cwd s) (vars s) 1
            (log s ++ [Ev Builtin (cwd s) ("cd" :: args) 1]), "")
    end.

(** [x=$(c)]: [c] runs in a subshell, so of the shell's own state only [$?]
    and the record of the run change; [x] gets the output without its
    trailing newlines. *)
Definition assign (x : string) (c : cmd) : cmd :=
  fun s =>
    let (s', out) := c s in
    (St (host s') (cwd s) ((x, strip_newlines out) :: vars s) (status s')
        (log s'), "").

(** [a && b] *)
Definition and_then (a b : cmd) : cmd :=
  fun s =>
    let (s1, o1) := a s in
    if (status s1 =? 0)%Z then
      let (s2, o2) := b s1 in (s2, (o1 ++ o2)%string)
    else (s1, o1).

(** [a] newline [b] *)
Definition seq (a b : cmd) : cmd :=
  fun s =>
    let (s1, o1) := a s in
    let (s2, o2) := b s1 in
    (s2, (o1 ++ o2)%string).

Notation "a && b" := (and_then a b) (at level 40, left associativity).
Notation "a ;; b" := (seq a b) (at level 61, right associativity).

(** A line that is not shell: bash reports a syntax error on standard error
    and ends the script with status 2; nothing is run. *)
Definition syntax_error : cmd :=
  fun s => (St (host s) (cwd s) (vars s) 2 (log s), "").

(** [new_manual_update.sh], line by line.  [date] is a program looked up
    on the host; [pwd] and [cd] are builtins of bash; [$temp_path] is
    unquoted on every line, [$temp_date] stands inside double quotes.  The
    commented lines of the script ([echo], [read]) do nothing.  The file
    ends, after its seventeen lines of shell, in a line of text that bash
    cannot parse: lines are read and run one by one, so the seventeen lines
    run first. *)
Definition new_manual_update : cmd :=
  assign "temp_date" (exec [lit "date"]) ;;
  assign "temp_path" pwd ;;
  cd [var "temp_path"] && exec [lit "/usr/bin/git"; lit "branch"; lit "tmp"] ;;
  cd [var "temp_path"] && exec [lit "/usr/bin/git"; lit "checkout"; lit "tmp"] ;;
  cd [var "temp_path"] && exec [lit "/usr/bin/git"; lit "add"; lit "."; lit "--all"] ;;
  cd [var "temp_path"] && exec [lit "/usr/bin/git"; lit "commit"; lit "-m";
                                dq [txt "code on "; ref "temp_date"]] ;;
  cd [var "temp_path"] && exec [lit "/usr/bin/git"; lit "checkout"; lit "master"] ;;
  cd [var "temp_path"] && exec [lit "/usr/bin/git"; lit "merge"; lit "tmp"] ;;
  cd [var "temp_path"] && exec [lit "/usr/bin/git"; lit "push"; lit "origin"; lit "master"] ;;
  cd [var "temp_path"] && exec [lit "/usr/bin/git"; lit "branch"; lit "-d"; lit "tmp"] ;;
  syntax_error.

(** The script started on host [h] in directory [d]. *)
Definition start (h : H) (d : string) : state H := St h d [] 0 [].

Definition run (h : H) (d : string) : state H :=
  fst (new_manual_update (start h d)).

End Script.

(** ** Reading the record of a run *)

Definition git : string := "/usr/bin/git".

(** The arguments of every [git] invocation, in order. *)
Definition gits (l : list event) : list (list string) :=
  flat_map (fun e =>
              match ev_kind e, ev_argv e with
              | External, prog :: args =>
                  if String.eqb prog git then [args] else []
              | _, _ => []
              end) l.

(** The directories the [git] invocations ran in. *)
Definition git_dirs (l : list event) : list string :=
  flat_map (fun e =>
              match ev_kind e, ev_argv e with
              | External, prog :: _ =>
                  if String.eqb prog git then [ev_cwd e] else []
              | _, _ => []
              end) l.

(** The external programs started, in order. *)
Definition programs (l : list event) : list string :=
  flat_map (fun e =>
              match ev_kind e, ev_argv e with
              | External, prog :: _ => [prog]
              | _, _ => []
              end) l.

Definition is_cd (e : event) : bool :=
  match ev_kind e, ev_argv e with
  | Builtin, name :: _ => String.eqb name "cd"
  | _, _ => false
  end.

(** The [cd] commands of a run. *)
Definition cds (l : list event) : list event := filter is_cd l.

(** What was invoked, whatever it returned. *)
Definition invocation (e : event) : kind * string * list string :=
  (ev_kind e, ev_cwd e, ev_argv e).

(** The messages of the [git commit -m] invocations. *)
Definition commit_messages (l : list event) : list string :=
  flat_map (fun a =>
              match a with
              | [c; m; msg] =>
                  if String.eqb c "commit" && String.eqb m "-m"
                  then [msg] else []
              | _ => []
              end) (gits l).

(** The eight [git] command lines of the script, for time stamp [stamp]. *)
Definition git_steps (stamp : string) : list (list string) :=
  [ ["branch"; "tmp"];
    ["checkout"; "tmp"];
    ["add"; "."; "--all"];
    ["commit"; "-m"; "code on " ++ stamp];
    ["checkout"; "master"];
    ["merge"; "tmp"];
    ["push"; "origin"; "master"];
    ["branch"; "-d"; "tmp"] ]%string.

(** [pick sts steps]: the steps whose guard returned 0. *)
Fixpoint pick {A : Type} (sts : list Z) (steps : list A) : list A :=
  match sts, steps with
  | st :: sts', a :: steps' =>
      if (st =? 0)%Z then a :: pick sts' steps' else pick sts' steps'
  | _, _ => []
  end.

(** What the script captures at its start on host [h] in directory [d]. *)
Definition stamp_of {H : Type} (os : OS H) (h : H) (d : string) : string :=
  strip_newlines (stdout_of os h d ["date"]).

Definition path_of (d : string) : string :=
  strip_newlines (d ++ String newline "")%string.

(** What [temp_path=$(pwd)] captures on host [h] in directory [d]: [pwd]
    runs after [date]. *)
Definition temp_path_of {H : Type} (os : OS H) (h : H) (d : string) : string :=
  if here os (spawn os h d ["date"]) d then path_of d else "".

(** ** Hosts to run the script on *)

(** A host whose state is the list of programs run so far, newest first.
    [dirs] tells which directories exist after them; [date] prints the
    entry of [clock] for the number of programs run. *)
Definition history : Type := list (list string).

Definition clock : list string :=
  ["Mon Nov  9 09:00:00 CST 2015"; "Mon Nov  9 09:00:01 CST 2015";
   "Mon Nov  9 09:00:02 CST 2015"; "Mon Nov  9 09:00:03 CST 2015";
   "Mon Nov  9 09:00:04 CST 2015"; "Mon Nov  9 09:00:05 CST 2015"].

Definition is_date (argv : list string) : bool :=
  match argv with
  | [prog] => String.eqb prog "date"
  | _ => false
  end.

Definition host_of (dirs : history -> list string) : OS history :=
  {| chdir := fun h _ d => if existsb (String.eqb d) (dirs h) then Some d else None;
     here := fun h c => existsb (String.eqb c) (dirs h);
     matches := fun _ _ _ => [];
     spawn := fun h _ argv => argv :: h;
     stdout_of := fun h _ argv =>
       if is_date argv
       then (nth (length h) clock "later" ++ String newline "")%string
       else "";
     home := Some "/home/u" |}.

(** The repository directory stays where it is. *)
Definition steady : OS history := host_of (fun _ => ["/repo"]).

Definition ran (argv : list string) (h : history) : bool :=
  existsb (fun a => if list_eq_dec string_dec a argv then true else false) h.

(** The script is started in a directory that only the new branch has:
    checking out [master] removes it. *)
Definition vanishing : OS history :=
  host_of (fun h => if ran [git; "checkout"; "master"] h
                    then ["/repo"] else ["/repo"; "/repo/new"]).

(** Two directories whose names differ by a trailing space. *)
Definition spaced : OS history := host_of (fun _ => ["/tmp/w"; "/tmp/w "]).

Definition all_ok : exits history := fun _ _ _ => 0%Z.
Definition all_fail : exits history := fun _ _ _ => 1%Z.

(** ** The script as two captures and eight guarded lines *)

Section Lines.

Context {H : Type}.
Variable os : OS H.

(** One line [cd $temp_path && /usr/bin/git gargs] when [temp_path] is [p]. *)
Definition git_line (ex : exits H) (p : string) (s : state H)
    (gargs : list string) : state H :=
  let args := operands os (host s) (cwd s) p in
  match cd_target os (host s) (cwd s) args with
  | Some c' =>
      let e := ex (host s) c' (git :: gargs) in
      St (spawn os (host s) c' (git :: gargs)) c' (vars s) e
         (log s ++ [Ev Builtin (cwd s) ("cd" :: args) 0;
                    Ev External c' (git :: gargs) e])
  | None =>
      St (host s) (cwd s) (vars s) 1
         (log s ++ [Ev Builtin (cwd s) ("cd" :: args) 1])
  end.

(** The state once [temp_date] and [temp_path] are captured. *)
Definition captured (ex : exits H) (h : H) (d : string) : state H :=
  let e := if here os (spawn os h d ["date"]) d then 0%Z else 1%Z in
  St (spawn os h d ["date"]) d
     [("temp_path", temp_path_of os h d); ("temp_date", stamp_of os h d)] e
     [Ev External d ["date"] (ex h d ["date"]); Ev Builtin d ["pwd"] e].

(** The state the script ends in when its last line of shell left [s]. *)
Definition ended (s : state H) : state H :=
  St (host s) (cwd s) (vars s) 2 (log s).

Lemma seq_fst (ex : exits H) (a b : cmd) (s : state H) :
  fst (seq a b s) = fst (b (fst (a s))).
Proof.
  unfold seq. destruct (a s) as [s1 o1]. simpl.
  destruct (b s1) as [s2 o2]. reflexivity.
Qed.

Lemma vars_git_line ex p s gargs : vars (git_line ex p s gargs) = vars s.
Proof. unfold git_line. destruct (cd_target _ _ _ _); reflexivity. Qed.

Lemma guarded_fst (ex : exits H) (ws : list word) (s : state H) (gargs : list string) :
  (forall s', vars s' = vars s -> argv_of ws s' = gargs) ->
  fst (and_then (cd os [var os "temp_path"])
                (exec os ex (lit "/usr/bin/git" :: ws)) s)
  = git_line ex (value "temp_path" (vars s)) s gargs.
Proof.
  intros Hargs. unfold and_then, cd, git_line.
  replace (argv_of [var os "temp_path"] s)
    with (operands os (host s) (cwd s) (value "temp_path" (vars s)))
    by (unfold argv_of, var; simpl; now rewrite app_nil_r).
  destruct (cd_target os (host s) (cwd s) _) as [c'|]; simpl; [|reflexivity].
  unfold argv_of in *. simpl.
  rewrite (Hargs (St (host s) c' (vars s) 0 _) eq_refl).
  rewrite <- app_assoc. reflexivity.
Qed.

Lemma vars_fold ex p steps s :
  vars (fold_left (git_line ex p) steps s) = vars s.
Proof.
  revert s. induction steps as [|a steps IH]; intros s; simpl; [reflexivity|].
  rewrite IH. apply vars_git_line.
Qed.

(** The run is the eight lines applied, in order, to the captured state,
    and then the end of the script. *)
Lemma run_lines ex h d :
  run os ex h d
  = ended (fold_left (git_line ex (temp_path_of os h d))
                     (git_steps (stamp_of os h d)) (captured ex h d)).
Proof.
  unfold run, new_manual_update.
  repeat rewrite (seq_fst ex).
  assert (E0 : fst (assign "temp_path" (pwd os)
                      (fst (assign "temp_date" (exec os ex [lit "date"])
                                   (start h d))))
               = captured ex h d).
  { unfold assign, pwd, exec, captured, temp_path_of, start. cbn.
    destruct (here os (spawn os h d ["date"]) d); reflexivity. }
  rewrite E0. simpl fold_left.
  set (s0 := captured ex h d).
  assert (V0 : vars s0 = [("temp_path", temp_path_of os h d);
                          ("temp_date", stamp_of os h d)])
    by reflexivity.
  assert (P : forall s : state H, vars s = vars s0 ->
                        value "temp_path" (vars s) = temp_path_of os h d)
    by (intros s E; rewrite E, V0; reflexivity).
  repeat match goal with
  | |- context [fst (and_then (cd os [var os "temp_path"])
                              (exec os ex (lit "/usr/bin/git" :: ?ws)) ?s)] =>
      let V := fresh "V" in
      assert (V : vars s = vars s0)
        by (repeat rewrite vars_git_line; reflexivity);
      rewrite (guarded_fst ex ws s
                 (argv_of ws (St (host s) "" (vars s0) 0 [])))
        by (intros s' E; unfold argv_of, lit, dq; simpl; rewrite ?E, ?V; reflexivity);
      rewrite (P s V)
  end.
  reflexivity.
Qed.

Lemma log_ended s : log (ended s) = log s.
Proof. reflexivity. Qed.

Lemma vars_ended s : vars (ended s) = vars s.
Proof. reflexivity. Qed.

Lemma host_ended s : host (ended s) = host s.
Proof. reflexivity. Qed.

Lemma cwd_ended s : cwd (ended s) = cwd s.
Proof. reflexivity. Qed.

(** What one line adds to the record of the run. *)
Definition line_events (ex : exits H) (p : string) (s : state H)
    (gargs : list string) : list event :=
  let args := operands os (host s) (cwd s) p in
  match cd_target os (host s) (cwd s) args with
  | Some c' =>
      [Ev Builtin (cwd s) ("cd" :: args) 0;
       Ev External c' (git :: gargs) (ex (host s) c' (git :: gargs))]
  | None => [Ev Builtin (cwd s) ("cd" :: args) 1]
  end.

Lemma log_git_line ex p s a :
  log (git_line ex p s a) = log s ++ line_events ex p s a.
Proof.
  unfold git_line, line_events.
  destruct (cd_target _ _ _ _); reflexivity.
Qed.

Lemma gits_app l l' : gits (l ++ l') = gits l ++ gits l'.
Proof. apply flat_map_app. Qed.

Lemma programs_app l l' : programs (l ++ l') = programs l ++ programs l'.
Proof. apply flat_map_app. Qed.

Lemma git_dirs_app l l' : git_dirs (l ++ l') = git_dirs l ++ git_dirs l'.
Proof. apply flat_map_app. Qed.

Lemma cds_app l l' : cds (l ++ l') = cds l ++ cds l'.
Proof. apply filter_app. Qed.

(** A line always tries its [cd]; it runs its [git] exactly when the [cd]
    returned 0. *)
Lemma line_shape ex p s a :
  exists c : event,
    cds (line_events ex p s a) = [c] /\
    gits (line_events ex p s a) = pick [ev_exit c] [a] /\
    programs (line_events ex p s a) = repeat git (length (pick [ev_exit c] [a])).
Proof.
  unfold line_events.
  destruct (cd_target _ _ _ _) as [c'|]; eexists; repeat split; reflexivity.
Qed.

Lemma pick_app {A : Type} (sts sts' : list Z) (l l' : list A) :
  length sts = length l ->
  pick (sts ++ sts') (l ++ l') = pick sts l ++ pick sts' l'.
Proof.
  revert l. induction sts as [|st sts IH]; intros [|a l] E; simpl in *;
    try discriminate; [reflexivity|].
  injection E as E. rewrite (IH l E).
  destruct (st =? 0)%Z; reflexivity.
Qed.

Lemma pick_length {A : Type} (sts : list Z) (l : list A) :
  length (pick sts l) <= length l.
Proof.
  revert l. induction sts as [|st sts IH]; intros [|a l]; simpl; try lia.
  specialize (IH l). destruct (st =? 0)%Z; simpl; lia.
Qed.

Lemma pick_In {A : Type} (sts : list Z) (l : list A) (x : A) :
  In x (pick sts l) -> In x l.
Proof.
  revert l. induction sts as [|st sts IH]; intros [|a l]; simpl; try tauto.
  destruct (st =? 0)%Z; simpl; [intros [E|I]; auto | intros I; auto].
Qed.

Lemma pick_all {A : Type} (sts : list Z) (l : list A) :
  length sts = length l ->
  forallb (fun st => (st =? 0)%Z) sts = true ->
  pick sts l = l.
Proof.
  revert l. induction sts as [|st sts IH]; intros [|a l] E F; simpl in *;
    try discriminate; [reflexivity|].
  apply andb_prop in F as [F1 F2]. rewrite F1.
  f_equal. apply IH; [now injection E|exact F2].
Qed.

(** The lines of the script add, to the record of the run, one [cd] each and
    the [git] commands whose [cd] returned 0. *)
Lemma lines_shape ex p steps s :
  exists C : list event,
    length C = length steps /\
    cds (log (fold_left (git_line ex p) steps s)) = cds (log s) ++ C /\
    gits (log (fold_left (git_line ex p) steps s))
    = gits (log s) ++ pick (map ev_exit C) steps /\
    programs (log (fold_left (git_line ex p) steps s))
    = programs (log s) ++ repeat git (length (pick (map ev_exit C) steps)).
Proof.
  revert s. induction steps as [|a steps IH]; intros s; simpl.
  - exists []. simpl. now rewrite !app_nil_r.
  - destruct (IH (git_line ex p s a)) as (C & L & Hc & Hg & Hp).
    destruct (line_shape ex p s a) as (c & Lc & Lg & Lp).
    exists (c :: C). rewrite Hc, Hg, Hp, log_git_line.
    rewrite cds_app, gits_app, programs_app, Lc, Lg, Lp.
    rewrite <- !app_assoc. simpl.
    destruct (ev_exit c =? 0)%Z; simpl; repeat split; auto.
Qed.

(** The whole run, read off the record. *)
Lemma run_shape ex h d :
  let l := log (run os ex h d) in
  length (cds l) = 8 /\
  gits l = pick (map ev_exit (cds l)) (git_steps (stamp_of os h d)) /\
  programs l
  = "date" :: repeat git (length (pick (map ev_exit (cds l))
                                       (git_steps (stamp_of os h d)))).
Proof.
  intros l. subst l. rewrite run_lines, log_ended.
  destruct (lines_shape ex (temp_path_of os h d) (git_steps (stamp_of os h d))
              (captured ex h d)) as (C & L & Hc & Hg & Hp).
  rewrite Hc, Hg, Hp. simpl. auto.
Qed.

(** *** Directory names the shell passes on unchanged *)

(** No white space, no pattern character, not empty. *)
Definition plain (d : string) : bool :=
  nonempty (list_ascii_of_string d)
  && forallb (fun c => negb (is_ifs c) && negb (is_glob c))
             (list_ascii_of_string d).

Lemma list_ascii_app (a b : string) :
  list_ascii_of_string (a ++ b)%string
  = list_ascii_of_string a ++ list_ascii_of_string b.
Proof. induction a as [|c a IH]; simpl; [reflexivity|now rewrite IH]. Qed.

Lemma split_ifs_plain (cur l : list ascii) :
  forallb (fun c => negb (is_ifs c) && negb (is_glob c)) l = true ->
  split_ifs cur l = [rev cur ++ l].
Proof.
  revert cur. induction l as [|c l IH]; intros cur F; simpl in *.
  - now rewrite app_nil_r.
  - apply andb_prop in F as [Fc Fl]. apply andb_prop in Fc as [Fi _].
    apply negb_true_iff in Fi. rewrite Fi, (IH _ Fl). simpl.
    now rewrite <- app_assoc.
Qed.

Lemma fields_plain (d : string) : plain d = true -> fields d = [d].
Proof.
  unfold plain, fields. intros P. apply andb_prop in P as [N F].
  rewrite (split_ifs_plain [] _ F). simpl. rewrite N. simpl.
  now rewrite string_of_list_ascii_of_string.
Qed.

Lemma has_glob_plain (d : string) : plain d = true -> has_glob d = false.
Proof.
  unfold plain, has_glob. intros P. apply andb_prop in P as [_ F].
  induction (list_ascii_of_string d) as [|c l IH]; simpl in *; [reflexivity|].
  apply andb_prop in F as [Fc Fl]. apply andb_prop in Fc as [_ Fg].
  apply negb_true_iff in Fg. now rewrite Fg, (IH Fl).
Qed.

Lemma operands_plain (h : H) (c d : string) :
  plain d = true -> operands os h c d = [d].
Proof.
  intros P. unfold operands, pathname. rewrite (fields_plain d P). simpl.
  now rewrite (has_glob_plain d P).
Qed.

Lemma path_of_plain (d : string) : plain d = true -> path_of d = d.
Proof.
  unfold plain, path_of, strip_newlines. intros P.
  apply andb_prop in P as [_ F].
  rewrite list_ascii_app. simpl. rewrite rev_app_distr. simpl.
  assert (E : drop_newlines (rev (list_ascii_of_string d))
              = rev (list_ascii_of_string d)).
  { assert (F' : forallb (fun c => negb (is_ifs c) && negb (is_glob c))
                         (rev (list_ascii_of_string d)) = true).
    { apply forallb_forall. intros x I. apply in_rev in I.
      revert x I. now apply forallb_forall. }
    destruct (rev (list_ascii_of_string d)) as [|c l]; [reflexivity|].
    simpl in *. apply andb_prop in F' as [Fc _]. apply andb_prop in Fc as [Fi _].
    apply negb_true_iff in Fi. unfold is_ifs in Fi.
    apply orb_false_iff in Fi as [_ Fn]. unfold is_newline. now rewrite Fn. }
  rewrite E, rev_involutive. apply string_of_list_ascii_of_string.
Qed.

(** With a plain start directory that [pwd] can retrieve and that [chdir]
    enters under its own name, every [git] the script starts runs in that
    directory. *)
Lemma git_runs_in_plain_start_dir ex h d :
  plain d = true ->
  here os (spawn os h d ["date"]) d = true ->
  (forall h' c c', chdir os h' c d = Some c' -> c' = d) ->
  Forall (fun c => c = d) (git_dirs (log (run os ex h d))).
Proof.
  intros P Hh Hc. rewrite run_lines, log_ended.
  unfold temp_path_of. rewrite Hh, (path_of_plain d P).
  assert (G : forall steps s,
             Forall (fun c => c = d) (git_dirs (log s)) ->
             Forall (fun c => c = d)
                    (git_dirs (log (fold_left (git_line ex d) steps s)))).
  { induction steps as [|a steps IH]; intros s F; simpl; [exact F|].
    apply IH. rewrite log_git_line, git_dirs_app. apply Forall_app.
    split; [exact F|]. unfold line_events. rewrite (operands_plain _ _ d P).
    simpl. destruct (chdir os (host s) (cwd s) d) as [c'|] eqn:E; simpl.
    - constructor; [now apply Hc in E|constructor].
    - constructor. }
  apply G. simpl. constructor.
Qed.

End Lines.

(** ** Exit statuses of programs do not steer the script *)

Section Statuses.

Context {H : Type}.
Variable os : OS H.
Variables ex1 ex2 : exits H.

(** Two shells that differ at most in [$?] and in the exit statuses they
    recorded. *)
Definition agree (s1 s2 : state H) : Prop :=
  host s1 = host s2 /\ cwd s1 = cwd s2 /\ vars s1 = vars s2 /\
  map invocation (log s1) = map invocation (log s2).

(** A word that reads the host, the directory and the variables only. *)
Definition steady_word (w : word) : Prop :=
  forall s1 s2 : state H, agree s1 s2 -> w s1 = w s2.

(** Two commands that keep such shells together and print the same;
    [alike_strict] when they also leave the same [$?]. *)
Definition alike (c1 c2 : cmd) : Prop :=
  forall s1 s2 : state H, agree s1 s2 ->
    agree (fst (c1 s1)) (fst (c2 s2)) /\ snd (c1 s1) = snd (c2 s2).

Definition alike_strict (c1 c2 : cmd) : Prop :=
  alike c1 c2 /\
  forall s1 s2 : state H, agree s1 s2 ->
    status (fst (c1 s1)) = status (fst (c2 s2)).

Lemma lit_steady a : steady_word (lit a).
Proof. intros s1 s2 _. reflexivity. Qed.

Lemma var_steady x : steady_word (var os x).
Proof.
  intros s1 s2 (Eh & Ec & Ev & _). unfold var. now rewrite Eh, Ec, Ev.
Qed.

Lemma dq_steady ps : steady_word (dq ps).
Proof.
  intros s1 s2 (_ & _ & Ev & _). unfold dq. now rewrite Ev.
Qed.

Lemma argv_steady ws s1 s2 :
  Forall steady_word ws -> agree s1 s2 -> argv_of ws s1 = argv_of ws s2.
Proof.
  intros F A. unfold argv_of.
  induction F as [|w ws Hw F IH]; simpl; [reflexivity|].
  now rewrite (Hw s1 s2 A), IH.
Qed.

Lemma exec_alike ws :
  Forall steady_word ws -> alike (exec os ex1 ws) (exec os ex2 ws).
Proof.
  intros F s1 s2 A. pose proof (argv_steady ws s1 s2 F A) as Ea.
  destruct A as (Eh & Ec & Ev & El). unfold exec, agree. simpl.
  rewrite !map_app, El, Ea, Eh, Ec, Ev. simpl. auto.
Qed.

Lemma pwd_alike : alike (pwd os) (pwd os).
Proof.
  intros s1 s2 (Eh & Ec & Ev & El). unfold pwd, agree.
  rewrite Eh, Ec. destruct (here os (host s2) (cwd s2)); simpl;
    rewrite !map_app, El, Ev; simpl; auto.
Qed.

Lemma syntax_error_alike : alike syntax_error syntax_error.
Proof.
  intros s1 s2 (Eh & Ec & Ev & El). unfold syntax_error, agree. simpl. auto.
Qed.

Lemma cd_alike ws :
  Forall steady_word ws -> alike_strict (cd os ws) (cd os ws).
Proof.
  intros F. split; intros s1 s2 A;
    pose proof (argv_steady ws s1 s2 F A) as Ea;
    destruct A as (Eh & Ec & Ev & El); unfold cd, agree;
    rewrite Ea, Eh, Ec;
    destruct (cd_target os (host s2) (cwd s2) (argv_of ws s2)); simpl;
    rewrite ?map_app, ?El, ?Ev; simpl; auto.
Qed.

Lemma assign_alike x c1 c2 : alike c1 c2 -> alike (assign x c1) (assign x c2).
Proof.
  intros Hc s1 s2 A. destruct (Hc s1 s2 A) as ((Eh & _ & _ & El) & Eo).
  destruct A as (_ & Ec & Ev & _). unfold assign, agree.
  destruct (c1 s1) as [t1 o1], (c2 s2) as [t2 o2]. simpl in *.
  rewrite Eh, Ec, Ev, El, Eo. auto.
Qed.

Lemma and_then_alike a1 a2 b1 b2 :
  alike_strict a1 a2 -> alike b1 b2 -> alike (and_then a1 b1) (and_then a2 b2).
Proof.
  intros (Ha & Hs) Hb s1 s2 A. unfold and_then.
  specialize (Ha s1 s2 A). specialize (Hs s1 s2 A).
  destruct (a1 s1) as [t1 o1], (a2 s2) as [t2 o2]. simpl in *.
  destruct Ha as (At & Eo). rewrite Hs, Eo.
  destruct (status t2 =? 0)%Z; [|auto].
  specialize (Hb t1 t2 At).
  destruct (b1 t1) as [u1 p1], (b2 t2) as [u2 p2]. simpl in *.
  destruct Hb as (Au & Ep). now rewrite Ep.
Qed.

Lemma seq_alike a1 a2 b1 b2 :
  alike a1 a2 -> alike b1 b2 -> alike (seq a1 b1) (seq a2 b2).
Proof.
  intros Ha Hb s1 s2 A. unfold seq.
  specialize (Ha s1 s2 A).
  destruct (a1 s1) as [t1 o1], (a2 s2) as [t2 o2]. simpl in *.
  destruct Ha as (At & Eo). specialize (Hb t1 t2 At).
  destruct (b1 t1) as [u1 p1], (b2 t2) as [u2 p2]. simpl in *.
  destruct Hb as (Au & Ep). now rewrite Eo, Ep.
Qed.

Create HintDb shell discriminated.
#[local] Hint Resolve lit_steady var_steady dq_steady exec_alike pwd_alike
  syntax_error_alike
  cd_alike assign_alike and_then_alike seq_alike : shell.
#[local] Hint Constructors Forall : shell.

Lemma script_alike :
  alike (new_manual_update os ex1) (new_manual_update os ex2).
Proof. unfold new_manual_update. auto 20 with shell. Qed.

End Statuses.

(** What the script itself prints (the output of the programs it does not
    capture). *)
Definition output {H : Type} (os : OS H) (ex : exits H) (h : H) (d : string)
  : string :=
  snd (new_manual_update os ex (start h d)).

(** ** The claims about the script *)

(** Started in a plain directory of a host that keeps it, the script runs
    every [git] there. *)
Lemma git_runs_in_plain_start_dir_witness :
  plain "/repo" = true /\
  Forall (fun c => c = "/repo")
         (git_dirs (log (run steady all_ok [] "/repo"))).
Proof.
  split; [reflexivity|].
  apply (git_runs_in_plain_start_dir steady all_ok [] "/repo");
    [reflexivity|reflexivity|].
  intros h' c c' E. cbn in E. congruence.
Defined.

(** C1, as stated, fails: started in a directory that exists only on the
    new branch, the script loses that directory at [git checkout master];
    the three [cd $temp_path] that follow fail and their [git] commands
    ([merge], [push], [branch -d]) are never run. *)
Lemma git_sequence_cut_short :
  gits (log (run vanishing all_ok [] "/repo/new"))
  = firstn 5 (git_steps (stamp_of vanishing [] "/repo/new")) /\
  gits (log (run vanishing all_ok [] "/repo/new"))
  <> git_steps (stamp_of vanishing [] "/repo/new").
Proof. split; [vm_compute; reflexivity | vm_compute; discriminate]. Qed.

(** C1 (amended): on every run in which each [cd $temp_path] returns 0,
    the [git] subcommands run are exactly branch create, checkout of the new
    branch, add, commit with the time-stamped message, checkout of master,
    merge, push, branch delete, in this order. *)
Theorem git_sequence_when_cd_succeeds {H : Type} (os : OS H) (ex : exits H)
    (h : H) (d : string) :
  forallb (fun e => (ev_exit e =? 0)%Z) (cds (log (run os ex h d))) = true ->
  gits (log (run os ex h d)) = git_steps (stamp_of os h d).
Proof.
  intros Hcd.
  destruct (run_shape os ex h d) as (L & G & _).
  rewrite G. apply pick_all.
  - rewrite length_map, L. reflexivity.
  - rewrite forallb_forall in *. intros st I.
    apply in_map_iff in I as (e & <- & I). now apply Hcd.
Qed.

(** A host that keeps the directory: every [cd] returns 0, even though
    every program fails. *)
Lemma git_sequence_when_cd_succeeds_witness :
  forallb (fun e => (ev_exit e =? 0)%Z)
          (cds (log (run steady all_fail [] "/repo"))) = true /\
  gits (log (run steady all_fail [] "/repo"))
  = git_steps "Mon Nov  9 09:00:00 CST 2015".
Proof.
  split; [vm_compute; reflexivity|].
  apply (git_sequence_when_cd_succeeds steady all_fail [] "/repo").
  vm_compute; reflexivity.
Defined.

(** No exit status of a program the script starts is ever consulted.
    Whatever the [git] commands (and [date]) return, the script goes
    through the same invocations, in the same directories, leaves the host
    in the same state and prints the same. *)
Lemma git_status_never_consulted {H : Type} (os : OS H) (ex1 ex2 : exits H)
    (h : H) (d : string) :
  map invocation (log (run os ex1 h d)) = map invocation (log (run os ex2 h d))
  /\ host (run os ex1 h d) = host (run os ex2 h d)
  /\ cwd (run os ex1 h d) = cwd (run os ex2 h d)
  /\ output os ex1 h d = output os ex2 h d.
Proof.
  destruct (script_alike os ex1 ex2 (start h d) (start h d))
    as ((Eh & Ec & _ & El) & Eo); [repeat split|].
  unfold run, output. auto.
Qed.

(** What [git] was asked is read off the invocations alone. *)
Lemma gits_by_invocation (l : list event) :
  gits l
  = flat_map (fun i : kind * string * list string =>
                match i with
                | (External, _, prog :: args) =>
                    if String.eqb prog git then [args] else []
                | _ => []
                end) (map invocation l).
Proof.
  induction l as [|e l IH]; simpl; [reflexivity|].
  rewrite <- IH. destruct e as [k c argv x]. simpl.
  destruct k; reflexivity.
Qed.

Lemma status_run {H : Type} (os : OS H) (ex : exits H) (h : H) (d : string) :
  status (run os ex h d) = 2%Z.
Proof. rewrite run_lines. reflexivity. Qed.

(** The exit statuses the [git] commands of a run returned. *)
Definition git_exits (l : list event) : list Z :=
  flat_map (fun e =>
              match ev_kind e, ev_argv e with
              | External, prog :: _ =>
                  if String.eqb prog git then [ev_exit e] else []
              | _, _ => []
              end) l.

(** C2, as stated, fails: a failed step can be followed by steps that are
    not executed.  Where the start directory is gone after
    [git checkout master], that command and the four before it have
    failed (status 1), and [merge], [push] and [branch -d], which depend on
    them, are not executed: their [cd $temp_path] fails. *)
Lemma failed_step_then_skipped_steps :
  gits (log (run vanishing all_fail [] "/repo/new"))
  = firstn 5 (git_steps (stamp_of vanishing [] "/repo/new")) /\
  git_exits (log (run vanishing all_fail [] "/repo/new")) = [1; 1; 1; 1; 1]%Z /\
  ~ In ["merge"; "tmp"] (gits (log (run vanishing all_fail [] "/repo/new"))) /\
  ~ In ["push"; "origin"; "master"]
       (gits (log (run vanishing all_fail [] "/repo/new"))).
Proof.
  assert (E : gits (log (run vanishing all_fail [] "/repo/new"))
              = firstn 5 (git_steps (stamp_of vanishing [] "/repo/new")))
    by (vm_compute; reflexivity).
  split; [exact E|]. split; [vm_compute; reflexivity|].
  rewrite E. split; vm_compute; intuition discriminate.
Qed.

(** C2 (amended): a non-zero exit of a [git] command is neither checked nor
    reported.  On every run in which each [cd $temp_path] succeeds, all
    eight [git] commands are executed in order whatever they return: if the
    [cd]s succeed under one table of exit statuses [ex], then under any
    other table [ex'] (every [git] failing, say) the script executes all
    eight [git] commands, goes through the same invocations in the same
    directories, prints the same and ends with the same status.  What can
    skip a step is the failure of its own [cd $temp_path] only. *)
Theorem failed_git_does_not_stop_the_script {H : Type} (os : OS H)
    (ex ex' : exits H) (h : H) (d : string) :
  forallb (fun e => (ev_exit e =? 0)%Z) (cds (log (run os ex h d))) = true ->
  gits (log (run os ex' h d)) = git_steps (stamp_of os h d) /\
  map invocation (log (run os ex' h d)) = map invocation (log (run os ex h d)) /\
  output os ex' h d = output os ex h d /\
  status (run os ex' h d) = status (run os ex h d).
Proof.
  intros Hcd.
  destruct (git_status_never_consulted os ex' ex h d) as (Ei & _ & _ & Eo).
  split; [|split; [exact Ei|split; [exact Eo|now rewrite !status_run]]].
  rewrite gits_by_invocation, Ei, <- gits_by_invocation.
  destruct (run_shape os ex h d) as (L & G & _).
  rewrite G. apply pick_all.
  - rewrite length_map, L. reflexivity.
  - rewrite forallb_forall in *. intros st I.
    apply in_map_iff in I as (e & <- & I). now apply Hcd.
Qed.

(** On a host that keeps the directory, with every [git] failing: all eight
    are executed, each returning 1. *)
Lemma failed_git_does_not_stop_the_script_witness :
  forallb (fun e => (ev_exit e =? 0)%Z)
          (cds (log (run steady all_ok [] "/repo"))) = true /\
  git_exits (log (run steady all_fail [] "/repo"))
  = [1; 1; 1; 1; 1; 1; 1; 1]%Z /\
  (gits (log (run steady all_fail [] "/repo"))
   = git_steps (stamp_of steady [] "/repo") /\
   map invocation (log (run steady all_fail [] "/repo"))
   = map invocation (log (run steady all_ok [] "/repo")) /\
   output steady all_fail [] "/repo" = output steady all_ok [] "/repo" /\
   status (run steady all_fail [] "/repo")
   = status (run steady all_ok [] "/repo")).
Proof.
  split; [vm_compute; reflexivity|]. split; [vm_compute; reflexivity|].
  apply (failed_git_does_not_stop_the_script steady all_ok all_fail [] "/repo").
  vm_compute; reflexivity.
Defined.

(** A run in which every program fails, the merge included, still pushes
    and deletes the branch. *)
Example failed_merge_still_pushes :
  gits (log (run steady all_fail [] "/repo"))
  = git_steps "Mon Nov  9 09:00:00 CST 2015"
  /\ map ev_exit (filter (fun e => negb (is_cd e)) (log (run steady all_fail [] "/repo")))
    = [1; 0; 1; 1; 1; 1; 1; 1; 1; 1]%Z.
Proof. split; vm_compute; reflexivity. Qed.

(** The names of the commands a run went through. *)
Definition control_path (l : list event) : list string :=
  map (fun e => hd "" (ev_argv e)) l.

(** C3, as stated, fails on both counts.  The commands the script goes
    through depend on the outcome of its [cd] commands: where the start
    directory disappears, the last three [git] commands are left out.  And
    the script does keep values between steps: [temp_date] and [temp_path]
    are set at its start and still set at its end. *)
Lemma control_path_varies_and_values_are_kept :
  control_path (log (run vanishing all_ok [] "/repo/new"))
  <> control_path (log (run steady all_ok [] "/repo")) /\
  vars (run steady all_ok [] "/repo")
  = [("temp_path", "/repo"); ("temp_date", "Mon Nov  9 09:00:00 CST 2015")] /\
  vars (run steady all_ok [] "/repo") <> [].
Proof.
  split; [vm_compute; discriminate|].
  split; [vm_compute; reflexivity | vm_compute; discriminate].
Qed.

(** C3 (amended): the script is one straight line.  It records two values
    at its start, [temp_date] (what [date] printed) and [temp_path] (what
    [pwd] printed: the start directory, or nothing where that directory
    cannot be retrieved), and ends with exactly these;
    it then attempts all eight [cd $temp_path] whatever happened before;
    and the [git] commands it runs are those of the eight lines whose own
    [cd] returned 0, in the order of the lines. *)
Theorem script_is_eight_guarded_lines {H : Type} (os : OS H) (ex : exits H)
    (h : H) (d : string) :
  vars (run os ex h d)
  = [("temp_path", temp_path_of os h d); ("temp_date", stamp_of os h d)] /\
  length (cds (log (run os ex h d))) = 8 /\
  gits (log (run os ex h d))
  = pick (map ev_exit (cds (log (run os ex h d))))
         (git_steps (stamp_of os h d)).
Proof.
  destruct (run_shape os ex h d) as (L & G & _).
  repeat split; auto.
  rewrite run_lines, vars_ended, vars_fold. reflexivity.
Qed.

(** C5, as stated, fails: the first program the script starts is [date],
    which is not the version-control binary. *)
Lemma date_is_started_too :
  programs (log (run steady all_ok [] "/repo"))
  = "date" :: repeat git 8 /\
  ~ Forall (fun prog => prog = git)
           (programs (log (run steady all_ok [] "/repo"))).
Proof.
  assert (E : programs (log (run steady all_ok [] "/repo"))
              = "date" :: repeat git 8) by (vm_compute; reflexivity).
  split; [exact E|].
  rewrite E. intros F. apply Forall_inv in F. discriminate.
Qed.

(** C5 (amended): the external programs the script starts are [date], once
    and first, and then only [/usr/bin/git], at most eight times; [pwd] and
    [cd] are builtins of the shell. *)
Theorem external_programs_are_date_and_git {H : Type} (os : OS H)
    (ex : exits H) (h : H) (d : string) :
  exists n : nat,
    n <= 8 /\ programs (log (run os ex h d)) = "date" :: repeat git n.
Proof.
  destruct (run_shape os ex h d) as (L & _ & P).
  eexists. split; [|exact P].
  apply (pick_length (map ev_exit (cds (log (run os ex h d))))
                     (git_steps (stamp_of os h d))).
Qed.

(** C8 fails on the code: started in a directory whose name ends in a
    space, the script captures that name, but the unquoted [$temp_path]
    loses the space to word splitting, and all eight [git] commands run in
    the neighbouring directory. *)
Lemma trailing_space_runs_git_elsewhere :
  path_of "/tmp/w " = "/tmp/w " /\
  git_dirs (log (run spaced all_ok [] "/tmp/w ")) = repeat "/tmp/w" 8 /\
  ~ Forall (fun c => c = "/tmp/w ")
           (git_dirs (log (run spaced all_ok [] "/tmp/w "))).
Proof.
  assert (E : git_dirs (log (run spaced all_ok [] "/tmp/w "))
              = repeat "/tmp/w" 8) by (vm_compute; reflexivity).
  split; [vm_compute; reflexivity|].
  split; [exact E|].
  rewrite E. intros F. apply Forall_inv in F. discriminate.
Qed.

(** C9: a commit the script makes has the message ["code on "] followed by
    what [date] printed when the script started, on the host as it was
    then; and [date] is run once in the whole run. *)
Theorem commit_message_is_start_stamp {H : Type} (os : OS H) (ex : exits H)
    (h : H) (d : string) (msg : string) :
  In msg (commit_messages (log (run os ex h d))) ->
  msg = ("code on " ++ strip_newlines (stdout_of os h d ["date"]))%string /\
  count_occ string_dec (programs (log (run os ex h d))) "date" = 1.
Proof.
  intros I.
  destruct (run_shape os ex h d) as (_ & G & P).
  split.
  - unfold commit_messages in I. rewrite G in I.
    apply in_flat_map in I as (a & Ia & Im).
    apply pick_In in Ia. simpl in Ia.
    repeat (destruct Ia as [<-|Ia]; [simpl in Im; tauto || (destruct Im as [<-|[]]; reflexivity)|]).
    destruct Ia.
  - rewrite P.
    generalize (length (pick (map ev_exit (cds (log (run os ex h d))))
                             (git_steps (stamp_of os h d)))).
    intros n. rewrite count_occ_cons_eq by reflexivity.
    f_equal. apply count_occ_not_In.
    intros I'. apply repeat_spec in I'. discriminate.
Qed.

(** On [steady] the clock moves with every program run: the commit is made
    when [date] would print 09:00:04, and carries 09:00:00. *)
Lemma commit_message_is_start_stamp_witness :
  In "code on Mon Nov  9 09:00:00 CST 2015"
     (commit_messages (log (run steady all_ok [] "/repo"))) /\
  strip_newlines
    (stdout_of steady
       [[git; "add"; "."; "--all"]; [git; "checkout"; "tmp"];
        [git; "branch"; "tmp"]; ["date"]] "/repo" ["date"])
  = "Mon Nov  9 09:00:04 CST 2015" /\
  ("code on Mon Nov  9 09:00:00 CST 2015"
   = String.append "code on "
       (strip_newlines (stdout_of steady [] "/repo" ["date"])) /\
   count_occ string_dec (programs (log (run steady all_ok [] "/repo"))) "date"
   = 1).
Proof.
  split; [vm_compute; auto|].
  split; [vm_compute; reflexivity|].
  apply (commit_message_is_start_stamp steady all_ok [] "/repo"
           "code on Mon Nov  9 09:00:00 CST 2015").
  vm_compute; auto.
Defined.

(** ** Further properties of the script *)

Section More.

Context {H : Type}.
Variable os : OS H.

Lemma pick_NoDup {A : Type} (sts : list Z) (l : list A) :
  NoDup l -> NoDup (pick sts l).
Proof.
  revert l. induction sts as [|st sts IH]; intros [|a l] N; simpl;
    try constructor.
  inversion N as [|? ? Na Nl]; subst.
  destruct (st =? 0)%Z; [constructor|]; auto.
  intros I. apply Na. eapply pick_In, I.
Qed.

(** In a list without repetition, the [i]-th step is picked exactly when
    the [i]-th guard returned 0. *)
Lemma pick_nth {A : Type} (dflt : A) (sts : list Z) (l : list A) (i : nat) :
  NoDup l -> length sts = length l -> i < length l ->
  In (nth i l dflt) (pick sts l) <-> nth i sts 1%Z = 0%Z.
Proof.
  revert l i. induction sts as [|st sts IH]; intros [|a l] i N E L;
    simpl in *; try discriminate; try lia.
  inversion N as [|? ? Na Nl]; subst. injection E as E.
  destruct i as [|i].
  - destruct (st =? 0)%Z eqn:T.
    + apply Z.eqb_eq in T. simpl. tauto.
    + apply Z.eqb_neq in T. split; [|tauto].
      intros I. exfalso. apply Na. eapply pick_In, I.
  - assert (Li : i < length l) by lia.
    specialize (IH l i Nl E Li).
    destruct (st =? 0)%Z; [|exact IH].
    simpl. split.
    + intros [Ea|I]; [|now apply IH].
      exfalso. apply Na. rewrite Ea. now apply nth_In.
    + intros T. right. now apply IH.
Qed.

Lemma git_steps_NoDup stamp : NoDup (git_steps stamp).
Proof.
  unfold git_steps.
  repeat (constructor; [simpl; intuition congruence|]). constructor.
Qed.

(** When no [cd $temp_path] can succeed, the lines leave host, directory
    and [git] record as they found them, and every [cd] returns 1. *)
Lemma lines_blocked ex p steps s :
  (forall h c, cd_target os h c (operands os h c p) = None) ->
  host (fold_left (git_line os ex p) steps s) = host s /\
  cwd (fold_left (git_line os ex p) steps s) = cwd s /\
  gits (log (fold_left (git_line os ex p) steps s)) = gits (log s) /\
  map ev_exit (cds (log (fold_left (git_line os ex p) steps s)))
  = map ev_exit (cds (log s)) ++ repeat 1%Z (length steps).
Proof.
  intros B. revert s. induction steps as [|a steps IH]; intros s; simpl.
  - rewrite app_nil_r. auto.
  - destruct (IH (git_line os ex p s a)) as (Eh & Ec & Eg & Ed).
    rewrite Eh, Ec, Eg, Ed. unfold git_line. rewrite B. simpl.
    rewrite gits_app, cds_app, map_app. simpl.
    rewrite app_nil_r, <- app_assoc. auto.
Qed.


Lemma seq_snd (ex : exits H) (a b : cmd) (s : state H) :
  snd (seq a b s) = (snd (a s) ++ snd (b (fst (a s))))%string.
Proof.
  unfold seq. destruct (a s) as [s1 o1]. simpl.
  destruct (b s1) as [s2 o2]. reflexivity.
Qed.

Lemma assign_quiet (x : string) (c : cmd) (s : state H) :
  snd (assign x c s) = "".
Proof. unfold assign. destruct (c s). reflexivity. Qed.

Lemma guarded_quiet (ex : exits H) (ws : list word) (s : state H) :
  (forall h c a, stdout_of os h c (git :: a) = "") ->
  snd (and_then (cd os [var os "temp_path"])
                (exec os ex (lit "/usr/bin/git" :: ws)) s) = "".
Proof.
  intros Q. unfold and_then, cd.
  destruct (cd_target os (host s) (cwd s) _) as [c'|]; simpl; [|reflexivity].
  unfold argv_of. simpl. apply Q.
Qed.

End More.


(** X3: each of the eight lines stands alone: its [git] command is run
    exactly when its own [cd] returned 0, whatever happened on the other
    lines ([push] runs after a skipped [merge]). *)
Theorem each_line_runs_iff_its_cd_succeeded {H : Type} (os : OS H)
    (ex : exits H) (h : H) (d : string) (i : nat) :
  i < 8 ->
  In (nth i (git_steps (stamp_of os h d)) []) (gits (log (run os ex h d)))
  <-> nth i (map ev_exit (cds (log (run os ex h d)))) 1%Z = 0%Z.
Proof.
  intros L. destruct (run_shape os ex h d) as (Lc & G & _).
  rewrite G. apply pick_nth.
  - apply git_steps_NoDup.
  - rewrite length_map, Lc. reflexivity.
  - exact L.
Qed.

(** Where the directory is gone after [git checkout master], line 6
    ([merge]) is skipped and its [cd] returned 1. *)
Lemma each_line_runs_iff_its_cd_succeeded_witness :
  5 < 8 /\
  nth 5 (map ev_exit (cds (log (run vanishing all_ok [] "/repo/new")))) 1%Z
  = 1%Z /\
  (In (nth 5 (git_steps (stamp_of vanishing [] "/repo/new")) [])
      (gits (log (run vanishing all_ok [] "/repo/new")))
   <-> nth 5 (map ev_exit (cds (log (run vanishing all_ok [] "/repo/new")))) 1%Z
       = 0%Z).
Proof.
  split; [lia|]. split; [vm_compute; reflexivity|].
  apply (each_line_runs_iff_its_cd_succeeded vanishing all_ok [] "/repo/new" 5).
  lia.
Defined.

(** X4: the script never runs a [git] command that is not one of its eight
    lines, and never runs one twice. *)
Theorem git_commands_are_lines_once {H : Type} (os : OS H) (ex : exits H)
    (h : H) (d : string) :
  incl (gits (log (run os ex h d))) (git_steps (stamp_of os h d)) /\
  NoDup (gits (log (run os ex h d))).
Proof.
  destruct (run_shape os ex h d) as (_ & G & _). rewrite G. split.
  - intros a I. eapply pick_In, I.
  - apply pick_NoDup, git_steps_NoDup.
Qed.

(** X5: when no [cd], given what [temp_path] holds in this run, can
    succeed, the script runs [date] and no other program: no [git] command,
    the host as [date] left it, the shell in the directory it started in,
    and each of the eight [cd] returning 1. *)
Theorem blocked_script_runs_no_git {H : Type} (os : OS H) (ex : exits H)
    (h : H) (d : string) :
  (forall h' c,
     cd_target os h' c (operands os h' c (temp_path_of os h d)) = None) ->
  gits (log (run os ex h d)) = [] /\
  programs (log (run os ex h d)) = ["date"] /\
  host (run os ex h d) = spawn os h d ["date"] /\
  cwd (run os ex h d) = d /\
  map ev_exit (cds (log (run os ex h d))) = repeat 1%Z 8.
Proof.
  intros B.
  destruct (run_shape os ex h d) as (_ & G & P).
  destruct (lines_blocked os ex (temp_path_of os h d)
              (git_steps (stamp_of os h d)) (captured os ex h d) B)
    as (Eh & Ec & Eg & Ed).
  rewrite <- host_ended, <- run_lines in Eh.
  rewrite <- cwd_ended, <- run_lines in Ec.
  rewrite <- log_ended, <- run_lines in Eg, Ed.
  assert (E0 : gits (log (run os ex h d)) = []) by (rewrite Eg; reflexivity).
  repeat split; auto.
  rewrite P, <- G, E0. reflexivity.
Qed.

(** A host with a directory whose name has a space in it. *)
Definition roomy : OS history := host_of (fun _ => ["/my repo"; "/home/u"]).

(** There [pwd] succeeds, [temp_path] holds the name, and [cd] is given two
    operands. *)
Lemma blocked_script_runs_no_git_witness :
  operands roomy [] "/my repo" (temp_path_of roomy [] "/my repo")
  = ["/my"; "repo"] /\
  gits (log (run roomy all_ok [] "/my repo")) = [] /\
  programs (log (run roomy all_ok [] "/my repo")) = ["date"] /\
  host (run roomy all_ok [] "/my repo") = [["date"]] /\
  cwd (run roomy all_ok [] "/my repo") = "/my repo" /\
  map ev_exit (cds (log (run roomy all_ok [] "/my repo"))) = repeat 1%Z 8.
Proof.
  split; [vm_compute; reflexivity|].
  apply (blocked_script_runs_no_git roomy all_ok [] "/my repo").
  intros h' c. reflexivity.
Defined.

(** The name ends in a newline. *)
Definition ends_in_newline (d : string) : bool :=
  match rev (list_ascii_of_string d) with
  | c :: _ => is_newline c
  | [] => false
  end.

Lemma drop_newlines_length (l : list ascii) :
  length (drop_newlines l) <= length l.
Proof.
  induction l as [|c l IH]; simpl; [lia|].
  destruct (is_newline c); simpl; lia.
Qed.

Lemma path_of_strip (d : string) : path_of d = strip_newlines d.
Proof.
  unfold path_of, strip_newlines.
  rewrite list_ascii_app. simpl. rewrite rev_app_distr. reflexivity.
Qed.

Lemma strip_newlines_fixed (d : string) :
  strip_newlines d = d <-> ends_in_newline d = false.
Proof.
  unfold strip_newlines, ends_in_newline.
  set (l := list_ascii_of_string d).
  assert (El : string_of_list_ascii l = d)
    by apply string_of_list_ascii_of_string.
  split.
  - intros E. apply (f_equal list_ascii_of_string) in E.
    rewrite list_ascii_of_string_of_list_ascii in E. fold l in E.
    apply (f_equal (@length ascii)) in E.
    rewrite length_rev, <- (length_rev l) in E.
    revert E. destruct (rev l) as [|c r]; [reflexivity|]. simpl.
    destruct (is_newline c); [|reflexivity].
    intros E. pose proof (drop_newlines_length r). lia.
  - intros N. destruct (rev l) as [|c r] eqn:R; simpl.
    + rewrite <- El. rewrite <- (rev_involutive l), R. reflexivity.
    + rewrite N. rewrite <- R, rev_involutive. exact El.
Qed.

(** X6: in a start directory that [pwd] can retrieve, the [temp_path] the
    script ends with is the name of that directory without the newlines it
    ends in; it is the start directory itself exactly when the name does
    not end in a newline. *)
Theorem temp_path_is_cwd_iff_no_final_newline {H : Type} (os : OS H)
    (ex : exits H) (h : H) (d : string) :
  here os (spawn os h d ["date"]) d = true ->
  value "temp_path" (vars (run os ex h d)) = strip_newlines d /\
  (value "temp_path" (vars (run os ex h d)) = d
   <-> ends_in_newline d = false).
Proof.
  intros Hh.
  assert (E : value "temp_path" (vars (run os ex h d)) = strip_newlines d).
  { rewrite run_lines, vars_ended, vars_fold. simpl.
    unfold temp_path_of. rewrite Hh. apply path_of_strip. }
  rewrite E. split; [reflexivity|apply strip_newlines_fixed].
Qed.

(** A host with a directory whose name ends in a newline. *)
Definition odd_name : string := ("/tmp/n" ++ String newline "")%string.

Definition odd : OS history := host_of (fun _ => [odd_name; "/tmp/n"]).

Lemma temp_path_is_cwd_iff_no_final_newline_witness :
  here odd (spawn odd [] odd_name ["date"]) odd_name = true /\
  ends_in_newline odd_name = true /\
  value "temp_path" (vars (run odd all_ok [] odd_name)) = "/tmp/n" /\
  (value "temp_path" (vars (run odd all_ok [] odd_name))
   = strip_newlines odd_name /\
   (value "temp_path" (vars (run odd all_ok [] odd_name)) = odd_name
    <-> ends_in_newline odd_name = false)).
Proof.
  split; [reflexivity|]. split; [reflexivity|].
  split; [vm_compute; reflexivity|].
  apply (temp_path_is_cwd_iff_no_final_newline odd all_ok [] odd_name).
  reflexivity.
Defined.

(** X7: the script prints nothing of its own.  What [date] and [pwd] write
    is captured, so with [git] commands that write nothing the output of
    the script is empty. *)
Theorem script_prints_only_what_git_prints {H : Type} (os : OS H)
    (ex : exits H) (h : H) (d : string) :
  (forall h' c a, stdout_of os h' c (git :: a) = "") ->
  output os ex h d = "".
Proof.
  intros Q. unfold output, new_manual_update.
  repeat rewrite (seq_snd ex).
  repeat rewrite (guarded_quiet os ex) by exact Q.
  rewrite !assign_quiet. reflexivity.
Qed.

Lemma script_prints_only_what_git_prints_witness :
  stdout_of steady [] "/repo" ["date"] <> "" /\
  output steady all_ok [] "/repo" = "".
Proof.
  split; [vm_compute; discriminate|].
  apply (script_prints_only_what_git_prints steady all_ok [] "/repo").
  intros h' c a. destruct a; reflexivity.
Defined.




End Shell.


(* ===================================================================== *)
(** * The notebook *)
(* ===================================================================== *)

Module Notebook.

(** Numbers are kept as the decimal literals the notebook writes. *)
Local Open Scope Q_scope.

Section Gluon.

(** ** The library *)

(** MXNet's array type, and the three library results the notebook's own
    control flow or later calls depend on. *)
Variable NDArray : Type.
Variable nd_array : list Q -> NDArray.
Variable synthetic_data : NDArray -> Q -> nat -> NDArray * NDArray.

Record ArrayDataset : Type := mkArrayDataset { arrays : list NDArray }.

Record DataLoader : Type := mkDataLoader {
  dataset : ArrayDataset;
  batch_size : nat;
  shuffle : bool
}.

Definition batch : Type := (NDArray * NDArray)%type.

(** [minibatches dl k]: the minibatches loader [dl] yields on the [k]-th
    pass begun in the session (passes counted from 0). *)
Variable minibatches : DataLoader -> nat -> list batch.

(** ** A session *)

(** The library calls a session makes, with the arguments the notebook
    chooses. *)
Inductive call : Type :=
  | nd_array_call (values : list Q)
  | synthetic_data_call (b : Q) (num_examples : nat)
  | ArrayDataset_call (n_arrays : nat)
  | DataLoader_call (batch_size : nat) (shuffle : bool)
  | iter_call (pass : nat)               (* [for ... in data_iter] begins *)
  | print_batch (X y : NDArray)
  | Sequential_call
  | Dense_call (units : nat)
  | add_call
  | Normal_call (sigma : Q)
  | initialize_call
  | L2Loss_call
  | collect_params_call
  | Trainer_call (optimizer : string) (learning_rate : Q)
  | record_call
  | net_call (X : NDArray)
  | loss_call (y : NDArray)
  | backward_call
  | step_call (batch_size : nat)
  | mean_call
  | asnumpy_call
  | print_epoch (epoch : nat)
  | getitem_call (i : nat)
  | weight_data_call
  | bias_data_call
  | reshape_call
  | sub_call
  | print_error.

Record session : Type := mkSession {
  passes : nat;          (* passes begun over a loader *)
  calls : list call      (* oldest first *)
}.

Definition M (A : Type) : Type := session -> A * session.

Definition ret {A : Type} (a : A) : M A := fun s => (a, s).

Definition bind {A B : Type} (m : M A) (k : A -> M B) : M B :=
  fun s => let (a, s') := m s in k a s'.

Notation "x <- m ;; k" := (bind m (fun x => k))
  (at level 61, m at next level, right associativity).
Notation "' p <- m ;; k" := (bind m (fun x => let p := x in k))
  (at level 61, p pattern, m at next level, right associativity).
Notation "m ;; k" := (bind m (fun _ => k))
  (at level 61, right associativity).

(** A library call that returns [a]. *)
Definition lib {A : Type} (c : call) (a : A) : M A :=
  fun s => (a, mkSession (passes s) (calls s ++ [c])).

(** How a loop body ends. *)
Inductive ctl : Type := Next | Break.

Fixpoint loop {A : Type} (l : list A) (body : A -> M ctl) : M unit :=
  match l with
  | [] => ret tt
  | x :: l' =>
      fun s => match body x s with
               | (Next, s') => loop l' body s'
               | (Break, s') => (tt, s')
               end
  end.

(** [for X, y in dl: body] *)
Definition for_in (dl : DataLoader) (body : batch -> M ctl) : M unit :=
  fun s =>
    loop (minibatches dl (passes s)) body
         (mkSession (S (passes s)) (calls s ++ [iter_call (passes s)])).

(** [for i in range(lo, hi): body] *)
Definition for_range (lo hi : nat) (body : nat -> M unit) : M unit :=
  loop (seq lo (hi - lo)) (fun i => body i ;; ret Next).

(** ** The notebook's code *)

(** [def load_array(data_arrays, batch_size, is_train=True)]; [None] is a
    call that leaves [is_train] out. *)
Definition load_array (data_arrays : list NDArray) (batch_size : nat)
    (is_train : option bool) : M DataLoader :=
  let is_train := match is_train with Some b => b | None => true end in
  dataset <- lib (ArrayDataset_call (length data_arrays))
                 (mkArrayDataset data_arrays) ;;
  lib (DataLoader_call batch_size is_train)
      (mkDataLoader dataset batch_size is_train).

(** The cells of [linear-regression-gluon.ipynb], top to bottom. *)
Definition linear_regression_gluon : M unit :=
  (* generating the data set *)
  true_w <- lib (nd_array_call [2; -3.4]) (nd_array [2; -3.4]) ;;
  let true_b := 4.2 in
  ' (features, labels) <- lib (synthetic_data_call true_b 1000)
                              (synthetic_data true_w true_b 1000) ;;
  (* reading data *)
  let batch_size := 10%nat in
  data_iter <- load_array [features; labels] batch_size None ;;
  for_in data_iter (fun '(X, y) =>
    lib (print_batch X y) tt ;;
    ret Break) ;;
  (* the model *)
  lib Sequential_call tt ;;
  lib (Dense_call 1) tt ;;
  lib add_call tt ;;
  (* initialisation *)
  lib (Normal_call 0.01) tt ;;
  lib initialize_call tt ;;
  (* the loss *)
  lib L2Loss_call tt ;;
  (* the optimisation algorithm *)
  lib collect_params_call tt ;;
  lib (Trainer_call "sgd" 0.03) tt ;;
  (* training *)
  let num_epochs := 3%nat in
  for_range 1 (num_epochs + 1) (fun epoch =>
    for_in data_iter (fun '(X, y) =>
      lib record_call tt ;;
      lib (net_call X) tt ;;
      lib (loss_call y) tt ;;
      lib backward_call tt ;;
      lib (step_call batch_size) tt ;;
      ret Next) ;;
    lib (net_call features) tt ;;
    lib (loss_call labels) tt ;;
    lib mean_call tt ;;
    lib asnumpy_call tt ;;
    lib (print_epoch epoch) tt) ;;
  (* the learned parameters *)
  lib (getitem_call 0) tt ;;
  lib weight_data_call tt ;;
  lib reshape_call tt ;;
  lib sub_call tt ;;
  lib print_error tt ;;
  lib (getitem_call 0) tt ;;
  lib bias_data_call tt ;;
  lib sub_call tt ;;
  lib print_error tt.

(** The calls of a fresh session that runs the notebook once. *)
Definition run : list call :=
  calls (snd (linear_regression_gluon (mkSession 0 []))).

(** ** Reading a session *)

(** The passes over a loader that were begun. *)
Definition passes_begun (l : list call) : list nat :=
  flat_map (fun c => match c with iter_call k => [k] | _ => [] end) l.

(** The minibatches that were printed. *)
Definition printed (l : list call) : list batch :=
  flat_map (fun c => match c with print_batch X y => [(X, y)] | _ => [] end) l.

(** The inputs the network was applied to. *)
Definition forwarded (l : list call) : list NDArray :=
  flat_map (fun c => match c with net_call X => [X] | _ => [] end) l.

(** The epochs whose loss was printed. *)
Definition epochs (l : list call) : list nat :=
  flat_map (fun c => match c with print_epoch e => [e] | _ => [] end) l.

(** The settings handed to the library. *)
Inductive setting : Type :=
  | BatchSize (n : nat)           (* [DataLoader(dataset, batch_size, ...)] *)
  | Sigma (q : Q)                 (* [init.Normal(sigma=...)] *)
  | LearningRate (q : Q)          (* [{'learning_rate': ...}] *)
  | StepBatchSize (n : nat).      (* [trainer.step(batch_size)] *)

Definition settings (l : list call) : list setting :=
  flat_map (fun c => match c with
                     | DataLoader_call b _ => [BatchSize b]
                     | Normal_call q => [Sigma q]
                     | Trainer_call _ q => [LearningRate q]
                     | step_call b => [StepBatchSize b]
                     | _ => []
                     end) l.

(** The eight kinds of library call the interface is made of. *)
Inductive stage : Type :=
  | Loader          (* dataset and loader construction *)
  | Model           (* sequential model construction *)
  | Layer           (* layer addition *)
  | Init            (* parameter initialisation *)
  | Loss            (* loss selection *)
  | Optimizer       (* trainer construction *)
  | Training        (* training-loop stepping *)
  | Inspection.     (* parameter inspection *)

Definition stage_eqb (a b : stage) : bool :=
  match a, b with
  | Loader, Loader | Model, Model | Layer, Layer | Init, Init
  | Loss, Loss | Optimizer, Optimizer | Training, Training
  | Inspection, Inspection => true
  | _, _ => false
  end.

(** The stage a call belongs to; data generation, reading the loader and
    printing belong to none. *)
Definition stage_of (c : call) : list stage :=
  match c with
  | ArrayDataset_call _ | DataLoader_call _ _ => [Loader]
  | Sequential_call => [Model]
  | Dense_call _ | add_call => [Layer]
  | Normal_call _ | initialize_call => [Init]
  | L2Loss_call => [Loss]
  | collect_params_call | Trainer_call _ _ => [Optimizer]
  | record_call | net_call _ | loss_call _ | backward_call | step_call _
  | mean_call | asnumpy_call => [Training]
  | getitem_call _ | weight_data_call | bias_data_call | reshape_call
  | sub_call => [Inspection]
  | nd_array_call _ | synthetic_data_call _ _ | iter_call _
  | print_batch _ _ | print_epoch _ | print_error => []
  end.

(** Runs of equal neighbours become one. *)
Fixpoint squash (l : list stage) : list stage :=
  match l with
  | a :: l' =>
      match l' with
      | b :: _ => if stage_eqb a b then squash l' else a :: squash l'
      | [] => [a]
      end
  | [] => []
  end.

(** The stages a session goes through, in order. *)
Definition stages (l : list call) : list stage :=
  squash (flat_map stage_of l).

(** ** The session the notebook produces *)

Definition features : NDArray :=
  fst (synthetic_data (nd_array [2; -3.4]) 4.2 1000).

Definition labels : NDArray :=
  snd (synthetic_data (nd_array [2; -3.4]) 4.2 1000).

(** The loader the notebook builds. *)
Definition data_iter : DataLoader :=
  mkDataLoader (mkArrayDataset [features; labels]) 10 true.

Definition batch_calls (b : batch) : list call :=
  [record_call; net_call (fst b); loss_call (snd b); backward_call;
   step_call 10].

Definition epoch_calls (epoch : nat) : list call :=
  iter_call epoch
  :: flat_map batch_calls (minibatches data_iter epoch)
  ++ [net_call features; loss_call labels; mean_call; asnumpy_call;
      print_epoch epoch].

Definition preview_calls : list call :=
  iter_call 0
  :: flat_map (fun b => [print_batch (fst b) (snd b)])
              (firstn 1 (minibatches data_iter 0)).

Definition setup_calls : list call :=
  [Sequential_call; Dense_call 1; add_call; Normal_call 0.01;
   initialize_call; L2Loss_call; collect_params_call;
   Trainer_call "sgd" 0.03].

Definition inspection_calls : list call :=
  [getitem_call 0; weight_data_call; reshape_call; sub_call; print_error;
   getitem_call 0; bias_data_call; sub_call; print_error].

Lemma loop_next {A : Type} (f : A -> list call) (body : A -> M ctl) :
  (forall x s, body x s = (Next, mkSession (passes s) (calls s ++ f x))) ->
  forall l s,
    loop l body s = (tt, mkSession (passes s) (calls s ++ flat_map f l)).
Proof.
  intros Hb. induction l as [|x l IH]; intros s; simpl.
  - rewrite app_nil_r. destruct s; reflexivity.
  - rewrite Hb, IH. simpl. now rewrite <- app_assoc.
Qed.

Lemma loop_break {A : Type} (f : A -> list call) (body : A -> M ctl) :
  (forall x s, body x s = (Break, mkSession (passes s) (calls s ++ f x))) ->
  forall l s,
    loop l body s
    = (tt, mkSession (passes s) (calls s ++ flat_map f (firstn 1 l))).
Proof.
  intros Hb. destruct l as [|x l]; intros s; simpl.
  - rewrite app_nil_r. destruct s; reflexivity.
  - rewrite Hb. now rewrite app_nil_r.
Qed.

(** The whole session, call by call. *)
Lemma run_calls :
  run = [nd_array_call [2; -3.4]; synthetic_data_call 4.2 1000;
         ArrayDataset_call 2; DataLoader_call 10 true]
        ++ preview_calls ++ setup_calls
        ++ epoch_calls 1 ++ epoch_calls 2 ++ epoch_calls 3
        ++ inspection_calls.
Proof.
  unfold run, linear_regression_gluon, load_array, for_range, for_in.
  unfold preview_calls, epoch_calls, data_iter, features, labels.
  cbv [bind lib ret].
  destruct (synthetic_data (nd_array [2; -3.4]) 4.2 1000) as [fs ls].
  cbn [seq Nat.sub Nat.add loop passes calls fst snd length].
  rewrite (loop_break (fun b => [print_batch (fst b) (snd b)]))
    by (intros [X y] s; reflexivity).
  cbn [passes calls].
  do 3 (rewrite (loop_next batch_calls)
          by (intros [X y] s; cbn [fst snd batch_calls];
              repeat rewrite <- app_assoc; reflexivity);
        cbn [passes calls]).
  cbv [ret]. cbn [snd calls]. unfold setup_calls, inspection_calls.
  cbn [app]. repeat rewrite <- app_assoc. cbn [app]. reflexivity.
Qed.

(** *** Reading the pieces of the session *)

Lemma flat_map_comp {A B C : Type} (g : B -> list C) (f : A -> list B)
    (l : list A) :
  flat_map g (flat_map f l) = flat_map (fun x => flat_map g (f x)) l.
Proof.
  induction l as [|x l IH]; simpl; [reflexivity|].
  now rewrite flat_map_app, IH.
Qed.

Lemma flat_map_none {A B : Type} (f : A -> list B) (l : list A) :
  (forall x, f x = []) -> flat_map f l = [].
Proof.
  intros Hf. induction l as [|x l IH]; simpl; [reflexivity|].
  now rewrite Hf, IH.
Qed.

Lemma flat_map_repeat {A B : Type} (f : A -> list B) (b : B) (k : nat)
    (l : list A) :
  (forall x, f x = repeat b k) -> flat_map f l = repeat b (length l * k).
Proof.
  intros Hf. induction l as [|x l IH]; simpl; [reflexivity|].
  now rewrite Hf, IH, repeat_app.
Qed.

Lemma flat_map_single {A B : Type} (f : A -> B) (l : list A) :
  flat_map (fun x => [f x]) l = map f l.
Proof.
  induction l as [|x l IH]; simpl; [reflexivity|now rewrite IH].
Qed.

(** Every projection below is a [flat_map]; on the session it splits along
    [run_calls]. *)
Ltac split_session :=
  rewrite run_calls;
  unfold preview_calls, epoch_calls, setup_calls, inspection_calls;
  repeat first [ rewrite flat_map_app
               | rewrite flat_map_comp
               | progress cbn [flat_map app] ];
  repeat match goal with
         | |- context [flat_map ?f ?l] =>
             rewrite (flat_map_none f l) by (intros; reflexivity)
         end;
  cbn [app]; rewrite ?app_nil_r.

Lemma passes_begun_run : passes_begun run = [0; 1; 2; 3]%nat.
Proof.
  unfold passes_begun. split_session. reflexivity.
Qed.

Lemma printed_run : printed run = firstn 1 (minibatches data_iter 0).
Proof.
  unfold printed. split_session.
  rewrite (flat_map_single (fun b : batch => (fst b, snd b))).
  rewrite <- (map_id (firstn 1 (minibatches data_iter 0))) at 2.
  apply map_ext. now intros [X y].
Qed.

Lemma epochs_run : epochs run = [1; 2; 3]%nat.
Proof.
  unfold epochs. split_session. reflexivity.
Qed.

Lemma forwarded_run :
  forwarded run
  = map fst (minibatches data_iter 1) ++ [features]
    ++ map fst (minibatches data_iter 2) ++ [features]
    ++ map fst (minibatches data_iter 3) ++ [features].
Proof.
  unfold forwarded. split_session.
  rewrite !(flat_map_single (fun b : batch => fst b)).
  rewrite <- !app_assoc. reflexivity.
Qed.

Lemma settings_run :
  settings run
  = [BatchSize 10; Sigma 0.01; LearningRate 0.03]
    ++ repeat (StepBatchSize 10)
              (length (minibatches data_iter 1)
               + length (minibatches data_iter 2)
               + length (minibatches data_iter 3)).
Proof.
  unfold settings. split_session.
  rewrite !(flat_map_repeat (fun _ : batch => [StepBatchSize 10])
              (StepBatchSize 10) 1) by reflexivity.
  rewrite !Nat.mul_1_r, !repeat_app. now rewrite <- !app_assoc.
Qed.

Lemma squash_run_of (a b : stage) (n : nat) (r : list stage) :
  stage_eqb a a = true -> stage_eqb a b = false ->
  squash (repeat a (S n) ++ b :: r) = a :: squash (b :: r).
Proof.
  intros Haa Hab. induction n as [|n IH].
  - cbn [repeat app squash]. now rewrite Hab.
  - change (repeat a (S (S n)) ++ b :: r)
      with (a :: (repeat a (S n) ++ b :: r)).
    change (squash (a :: (repeat a (S n) ++ b :: r)))
      with (if stage_eqb a a then squash (repeat a (S n) ++ b :: r)
            else a :: squash (repeat a (S n) ++ b :: r)).
    now rewrite Haa.
Qed.

Lemma squash_cons (a b : stage) (l : list stage) :
  squash (a :: b :: l)
  = if stage_eqb a b then squash (b :: l) else a :: squash (b :: l).
Proof. reflexivity. Qed.

(** C6: the library calls of the interface are made in the fixed order
    dataset/loader construction, sequential model construction, layer
    addition, parameter initialisation, loss selection, trainer
    construction, training-loop stepping, parameter inspection: the session
    goes through these eight stages once each, in this order, whatever the
    library returns.  (Data generation, reading the loader and printing
    belong to none of the eight.) *)
Theorem stages_in_fixed_order :
  stages run
  = [Loader; Model; Layer; Init; Loss; Optimizer; Training; Inspection].
Proof.
  unfold stages. split_session.
  rewrite !(flat_map_repeat (fun _ : batch => repeat Training 5) Training 5)
    by reflexivity.
  rewrite <- !app_assoc. cbn [stage_of app].
  set (n1 := (length (minibatches data_iter 1) * 5)%nat).
  set (n2 := (length (minibatches data_iter 2) * 5)%nat).
  set (n3 := (length (minibatches data_iter 3) * 5)%nat).
  pose (rest := repeat Inspection 7).
  assert (E : repeat Training n1 ++ Training :: Training :: Training :: Training
              :: repeat Training n2 ++ Training :: Training :: Training :: Training
              :: repeat Training n3 ++ Training :: Training :: Training :: Training
              :: rest
              = repeat Training (S (n1 + n2 + n3 + 11)) ++ Inspection :: repeat Inspection 6).
  { change (repeat Training n1 ++ repeat Training 4
            ++ repeat Training n2 ++ repeat Training 4
            ++ repeat Training n3 ++ repeat Training 4 ++ rest
            = repeat Training (S (n1 + n2 + n3 + 11)) ++ rest).
    rewrite !app_assoc, <- !repeat_app. do 2 f_equal. lia. }
  change (squash
            (Loader :: Loader :: Model :: Layer :: Layer :: Init :: Init
             :: Loss :: Optimizer :: Optimizer
             :: repeat Training n1 ++ Training :: Training :: Training :: Training
             :: repeat Training n2 ++ Training :: Training :: Training :: Training
             :: repeat Training n3 ++ Training :: Training :: Training :: Training
             :: rest)
          = [Loader; Model; Layer; Init; Loss; Optimizer; Training; Inspection]).
  rewrite E.
  change (repeat Training (S (n1 + n2 + n3 + 11)) ++ Inspection :: repeat Inspection 6)
    with (Training :: (repeat Training (n1 + n2 + n3 + 11)
                       ++ Inspection :: repeat Inspection 6)).
  rewrite !squash_cons. cbn [stage_eqb].
  change (Training :: (repeat Training (n1 + n2 + n3 + 11)
                       ++ Inspection :: repeat Inspection 6))
    with (repeat Training (S (n1 + n2 + n3 + 11)) ++ Inspection :: repeat Inspection 6).
  rewrite squash_run_of by reflexivity. reflexivity.
Qed.

(** ** The claims about the notebook *)

(** C4 (amended): the notebook has two loops of its own.  The first reads
    the loader and stops after one minibatch ([break]): it begins pass 0
    and prints the first minibatch of that pass, if there is one.  The
    second is the training loop of three epochs, 1, 2, 3, each a full pass
    over the loader (passes 1, 2, 3) followed by one evaluation on the whole
    data set. *)
Theorem preview_loop_then_three_epochs :
  passes_begun run = [0; 1; 2; 3]%nat /\
  printed run = firstn 1 (minibatches data_iter 0) /\
  epochs run = [1; 2; 3]%nat /\
  forwarded run
  = map fst (minibatches data_iter 1) ++ [features]
    ++ map fst (minibatches data_iter 2) ++ [features]
    ++ map fst (minibatches data_iter 3) ++ [features].
Proof.
  split; [apply passes_begun_run|].
  split; [apply printed_run|].
  split; [apply epochs_run | apply forwarded_run].
Qed.

(** C7: the settings handed to the library are the literals of the
    notebook, whatever the library returns: batch size 10 (to the loader and
    to every [trainer.step]), standard deviation 0.01, learning rate 0.03;
    and the epochs are 1, 2, 3. *)
Theorem settings_are_the_literals :
  settings run
  = [BatchSize 10; Sigma 0.01; LearningRate 0.03]
    ++ repeat (StepBatchSize 10)
              (length (minibatches data_iter 1)
               + length (minibatches data_iter 2)
               + length (minibatches data_iter 3)) /\
  epochs run = [1; 2; 3]%nat.
Proof. split; [apply settings_run | apply epochs_run]. Qed.

(** The loader [load_array] builds has [shuffle] equal to [is_train], which
    is [True] when the caller leaves it out; the flag is the one passed to
    [DataLoader], next to the data set made of the given arrays and the
    given batch size. *)
Lemma load_array_shuffle_is_is_train (data_arrays : list NDArray)
    (size : nat) (is_train : option bool) (s : session) :
  shuffle (fst (load_array data_arrays size is_train s))
  = match is_train with Some b => b | None => true end /\
  batch_size (fst (load_array data_arrays size is_train s)) = size /\
  arrays (dataset (fst (load_array data_arrays size is_train s)))
  = data_arrays /\
  calls (snd (load_array data_arrays size is_train s))
  = calls s
    ++ [ArrayDataset_call (length data_arrays);
        DataLoader_call size
          (shuffle (fst (load_array data_arrays size is_train s)))] /\
  shuffle (fst (load_array data_arrays size None s)) = true /\
  shuffle (fst (load_array data_arrays size (Some false) s)) = false.
Proof.
  unfold load_array, bind, lib. cbn [fst snd shuffle batch_size dataset arrays calls].
  rewrite <- app_assoc. repeat split.
Qed.

(** The loader of the notebook is built without [is_train]: it shuffles. *)
Lemma data_iter_shuffles :
  shuffle data_iter = true /\ In (DataLoader_call 10 true) run.
Proof.
  split; [reflexivity|]. rewrite run_calls. cbn. tauto.
Qed.

(** ** Further properties of the notebook *)

Definition is_record (c : call) : bool :=
  match c with record_call => true | _ => false end.

Definition net_input (c : call) : list NDArray :=
  match c with net_call X => [X] | _ => [] end.

Definition loss_label (c : call) : list NDArray :=
  match c with loss_call y => [y] | _ => [] end.

(** The minibatches the network was trained on: each [autograd.record()]
    that is followed at once by [net(X)] and [loss(..., y)] gives [(X, y)]. *)
Fixpoint trained (l : list call) : list batch :=
  match l with
  | [] => []
  | c :: l' =>
      (if is_record c then
         match l' with
         | c1 :: c2 :: _ => list_prod (net_input c1) (loss_label c2)
         | _ => []
         end
       else []) ++ trained l'
  end.

Lemma trained_skip (c : call) (l : list call) :
  is_record c = false -> trained (c :: l) = trained l.
Proof. intros E. simpl. now rewrite E. Qed.

Lemma trained_record (X y : NDArray) (l : list call) :
  trained (record_call :: net_call X :: loss_call y :: l)
  = (X, y) :: trained (net_call X :: loss_call y :: l).
Proof. reflexivity. Qed.

Lemma trained_batches (bs : list batch) (l : list call) :
  trained (flat_map batch_calls bs ++ l) = bs ++ trained l.
Proof.
  induction bs as [|[X y] bs IH]; [reflexivity|].
  cbn [flat_map batch_calls fst snd]. rewrite <- app_assoc.
  change (batch_calls (X, y))
    with [record_call; net_call X; loss_call y; backward_call; step_call 10].
  cbn [app]. rewrite trained_record.
  rewrite !trained_skip by reflexivity. now rewrite IH.
Qed.

Lemma trained_prints (bs : list batch) (l : list call) :
  trained (flat_map (fun b => [print_batch (fst b) (snd b)]) bs ++ l)
  = trained l.
Proof.
  induction bs as [|b bs IH]; [reflexivity|].
  cbn [flat_map app]. now rewrite trained_skip.
Qed.

(** X8: the network is trained on the minibatches of the loader's passes
    1, 2 and 3, each once and in the order the loader yields them; the
    minibatch the preview reads (pass 0) is printed and not trained on. *)
Theorem trained_on_three_full_passes :
  trained run
  = minibatches data_iter 1 ++ minibatches data_iter 2
    ++ minibatches data_iter 3.
Proof.
  rewrite run_calls.
  unfold preview_calls, epoch_calls, setup_calls, inspection_calls.
  cbn [app]. repeat rewrite <- app_assoc. cbn [app].
  repeat first [ rewrite trained_batches
               | rewrite trained_prints
               | rewrite trained_skip by reflexivity ].
  cbn [trained]. now rewrite app_nil_r.
Qed.

(** ** What a loader reads on a pass *)

(** The first of the arrays given. *)
Definition hd_default (data_arrays : list NDArray) : NDArray :=
  match data_arrays with
  | a :: _ => a
  | [] => nd_array []
  end.

(** [len a]: the number of rows of array [a]. *)
Variable len : NDArray -> nat.

(** [shuffled k l]: the order in which the library's random shuffle leaves
    [l] on the [k]-th pass begun in the session. *)
Variable shuffled : nat -> list nat -> list nat.

(** Modelled from the library's documentation: [ArrayDataset] wants at
    least one array and all arrays of the length of the first; it raises
    otherwise, and so does [load_array]. *)
Definition accepted (data_arrays : list NDArray) : bool :=
  match data_arrays with
  | [] => false
  | a :: rest => forallb (fun b => len b =? len a)%nat rest
  end.

(** Modelled from the library's documentation: the length of an
    [ArrayDataset] is that of its first array. *)
Definition samples (ds : ArrayDataset) : nat :=
  match arrays ds with
  | a :: _ => len a
  | [] => 0%nat
  end.

(** Modelled from the library's documentation: with [shuffle=True] a
    [DataLoader] reads through a random sampler, which shuffles the indices
    [0 .. n-1] anew at the start of every pass; with [shuffle=False]
    through a sequential sampler, which yields [0 .. n-1].  The notebook
    says the same: [shuffle] tells whether the loader is to shuffle the
    data on each epoch (pass through the data set). *)
Definition sample_order (dl : DataLoader) (k : nat) : list nat :=
  if shuffle dl then shuffled k (seq 0 (samples (dataset dl)))
  else seq 0 (samples (dataset dl)).

(** Modelled from the library's documentation: the batch sampler fills a
    batch with the indices it is given and yields it when it holds
    [size] of them; what is left at the end is yielded too ([cur]: the
    batch being filled, newest index first). *)
Fixpoint batches_from (size : nat) (cur : list nat) (l : list nat)
  : list (list nat) :=
  match l with
  | [] => match cur with [] => [] | _ :: _ => [rev cur] end
  | i :: l' =>
      if (length (i :: cur) =? size)%nat
      then rev (i :: cur) :: batches_from size [] l'
      else batches_from size (i :: cur) l'
  end.

(** The samples of the minibatches of pass [k], minibatch by minibatch. *)
Definition minibatch_indices (dl : DataLoader) (k : nat) : list (list nat) :=
  batches_from (batch_size dl) [] (sample_order dl k).

Lemma batches_from_concat (size : nat) (cur l : list nat) :
  concat (batches_from size cur l) = rev cur ++ l.
Proof.
  revert cur. induction l as [|i l IH]; intros cur.
  - destruct cur as [|j cur]; simpl; now rewrite ?app_nil_r.
  - cbn [batches_from].
    destruct (length (i :: cur) =? size)%nat; [cbn [concat]|];
      rewrite IH; simpl; now rewrite <- ?app_assoc.
Qed.

Lemma batches_from_sizes (size : nat) (cur l : list nat) :
  (length cur < size)%nat ->
  Forall (fun b => (0 < length b <= size)%nat) (batches_from size cur l).
Proof.
  revert cur. induction l as [|i l IH]; intros cur L.
  - destruct cur as [|j cur]; cbn [batches_from]; [constructor|].
    constructor; [|constructor]. rewrite length_rev. simpl in *. lia.
  - cbn [batches_from].
    destruct (length (i :: cur) =? size)%nat eqn:E.
    + apply Nat.eqb_eq in E. constructor.
      * rewrite length_rev. simpl in *. lia.
      * apply IH. simpl. lia.
    + apply Nat.eqb_neq in E. apply IH. simpl in *. lia.
Qed.

(** C10: for every call of [load_array] that the library accepts, the
    loader built has [shuffle] equal to [is_train], [True] when left out,
    and reads accordingly.  Built with the default (or [is_train=True]),
    the samples of pass [k], taken minibatch by minibatch, come in the order
    the library's shuffle drew for that pass: the data are shuffled anew on
    each epoch.  Built with [is_train=False], every pass reads the samples
    in the order of the data set: it never shuffles.  The minibatches hold
    [batch_size] samples, the last one possibly fewer. *)
Theorem load_array_shuffles_as_is_train (data_arrays : list NDArray)
    (size : nat) (is_train : option bool) (s : session) (k : nat) :
  accepted data_arrays = true ->
  (0 < size)%nat ->
  shuffle (fst (load_array data_arrays size is_train s))
  = match is_train with Some b => b | None => true end /\
  calls (snd (load_array data_arrays size is_train s))
  = calls s
    ++ [ArrayDataset_call (length data_arrays);
        DataLoader_call size
          (match is_train with Some b => b | None => true end)] /\
  concat (minibatch_indices (fst (load_array data_arrays size is_train s)) k)
  = (if match is_train with Some b => b | None => true end
     then shuffled k (seq 0 (len (hd_default data_arrays)))
     else seq 0 (len (hd_default data_arrays))) /\
  concat (minibatch_indices (fst (load_array data_arrays size None s)) k)
  = shuffled k (seq 0 (len (hd_default data_arrays))) /\
  concat (minibatch_indices
            (fst (load_array data_arrays size (Some false) s)) k)
  = seq 0 (len (hd_default data_arrays)) /\
  Forall (fun b => (0 < length b <= size)%nat)
         (minibatch_indices (fst (load_array data_arrays size is_train s)) k).
Proof.
  intros A L.
  destruct (load_array_shuffle_is_is_train data_arrays size is_train s)
    as (Es & _ & _ & Ec & _ & _).
  rewrite Es in Ec.
  split; [exact Es|]. split; [exact Ec|].
  unfold minibatch_indices. rewrite !batches_from_concat.
  unfold sample_order, load_array, bind, lib, samples, hd_default.
  cbn [fst shuffle dataset arrays batch_size app rev].
  destruct data_arrays as [|a rest]; [discriminate A|].
  repeat split.
  apply batches_from_sizes. simpl. exact L.
Qed.

End Gluon.

Arguments run {NDArray}.
Arguments passes_begun {NDArray}.
Arguments printed {NDArray}.
Arguments epochs {NDArray}.
Arguments forwarded {NDArray}.
Arguments settings {NDArray}.
Arguments stages {NDArray}.

(** ** A loader to read *)

(** Arrays are their numbers of rows; the shuffle of pass [k] turns the
    indices by [k] places. *)
Definition turned (k : nat) (l : list nat) : list nat :=
  skipn k l ++ firstn k l.

Definition five_rows : DataLoader nat :=
  fst (load_array nat [5; 5]%nat 2 None (mkSession nat 0 [])).

Definition five_rows_in_order : DataLoader nat :=
  fst (load_array nat [5; 5]%nat 2 (Some false) (mkSession nat 0 [])).

(** With the default the passes differ; with [is_train=False] they are the
    data set in its order. *)
Lemma load_array_shuffles_as_is_train_witness :
  accepted nat (fun a => a) [5; 5]%nat = true /\
  (0 < 2)%nat /\
  minibatch_indices nat (fun a => a) turned five_rows 1
  = [[1; 2]; [3; 4]; [0]]%nat /\
  minibatch_indices nat (fun a => a) turned five_rows 2
  = [[2; 3]; [4; 0]; [1]]%nat /\
  minibatch_indices nat (fun a => a) turned five_rows_in_order 2
  = [[0; 1]; [2; 3]; [4]]%nat /\
  concat (minibatch_indices nat (fun a => a) turned five_rows 1)
  = turned 1 (seq 0 5).
Proof.
  split; [reflexivity|]. split; [lia|].
  split; [reflexivity|]. split; [reflexivity|]. split; [reflexivity|].
  destruct (load_array_shuffles_as_is_train nat (fun _ => 0%nat) (fun a => a)
              turned [5; 5]%nat 2 None (mkSession nat 0 []) 1)
    as (_ & _ & _ & E & _); [reflexivity|lia|].
  exact E.
Defined.

(** ** A small library to run the notebook on *)

(** Arrays are numbers; every pass over a loader yields two minibatches,
    numbered after the pass. *)
Definition two_batches (dl : DataLoader nat) (k : nat) : list (nat * nat) :=
  [(10 * k + 1, 10 * k + 2); (10 * k + 3, 10 * k + 4)]%nat.

Definition small_run : list (call nat) :=
  run (fun _ => 0%nat) (fun _ _ _ => (7, 8)%nat) two_batches.

(** C4, as stated, fails: the training loop is not the notebook's only
    loop.  Four passes over the loader are begun for three epochs; the
    first belongs to the loop that previews the data, which prints one of
    the two minibatches and breaks. *)
Lemma preview_loop_is_a_loop_too :
  passes_begun small_run = [0; 1; 2; 3]%nat /\
  epochs small_run = [1; 2; 3]%nat /\
  length (passes_begun small_run) <> length (epochs small_run) /\
  printed small_run = [(1, 2)%nat].
Proof.
  repeat split; try (vm_compute; reflexivity).
  vm_compute. discriminate.
Qed.

End Notebook.
